(** * kafka_test/main.py: users and orders service

    A shallow embedding of the request handlers of [kafka_test/main.py]:
    the user CRUD endpoints and the order-creation workflow with its
    background tasks and its Kafka event.

    Python integers are [Z], strings are [string], lists are [list].
    The relational store, the per-request [BackgroundTasks] queue and the
    Kafka producer are one explicit [World] that every handler threads
    through a small state-and-exception monad. *)

From Stdlib Require Import ZArith List String Ascii Bool Lia.
From Stdlib Require Import Decimal DecimalString DecimalZ DecimalPos.
From Stdlib Require Import Permutation.
Import ListNotations.
Open Scope string_scope.
Open Scope list_scope.
Open Scope Z_scope.
Set Warnings "-register-all".

(** ** Data model *)

(** [class UserCreate(BaseModel)]: the body of POST and PUT on users. *)
Record UserCreate := mkUserCreate {
  uc_username : string;
  uc_email : string;
  uc_password_hash : string
}.

(** [class OrderCreate(BaseModel)]: the body of POST on orders. *)
Record OrderCreate := mkOrderCreate {
  oc_user_id : Z;
  oc_products : list Z;
  oc_email : string
}.

(** Modelled from the spec: the [database] module that declares the ORM
    classes [User], [Product] and [Order] is absent.  A user row has a
    numeric id, a username, an email and a password hash. *)
Record User := mkUser {
  user_id : Z;
  username : string;
  email : string;
  password_hash : string
}.

(** Modelled from the spec: a product row has an identity and a numeric
    price; prices are counted in minor currency units. *)
Record Product := mkProduct {
  product_id : Z;
  price : Z
}.

(** Modelled from the spec: an order row has an identity, the owning user
    id, the ordered sequence of product ids, an email and the stored total
    price.  The last four are the keyword arguments the handler builds the
    row from: the fields of the request and [total_price]. *)
Record Order := mkOrder {
  order_id : Z;
  order_user_id : Z;
  order_products : list Z;
  order_email : string;
  total_price : Z
}.

(** [class EmailSender]: it has no fields. *)
Inductive EmailSender := mkEmailSender.

(** A unit of work handed to [background_tasks.add_task]: the actor and
    its positional arguments. *)
Inductive Task :=
| send_confirmation_email (order : Z) (to : string) (sender : EmailSender)
| process_payment (order : Z).

(** The values [json.dumps] is applied to by the producer. *)
Inductive Json :=
| JInt (n : Z)
| JStr (s : string)
| JObj (fields : list (string * Json)).

(** A record handed to [producer.send(topic, value=...)]. *)
Record ProducerRecord := mkRecord {
  rec_topic : string;
  rec_value : Json
}.

(** What a handler does to the outside, in the order it does it. *)
Inductive Effect :=
| Committed
| Scheduled (t : Task)
| Published (r : ProducerRecord).

(** The relational store behind [SessionLocal].  Tables are kept in row
    order; a counter per table hands out primary keys.  [store_writable]
    says whether the engine accepts the next [db.commit()]. *)
Record Store := mkStore {
  users_table : list User;
  next_user_id : Z;
  products_table : list Product;
  orders_table : list Order;
  next_order_id : Z;
  store_writable : bool
}.

Record World := mkWorld {
  db : Store;
  background_tasks : list Task;
  producer_sent : list ProducerRecord;
  trace : list Effect
}.

(** ** Exceptions and the handler monad *)

Inductive Error :=
| HTTPException (status_code : Z) (detail : string)
| StorageError.

Inductive Result (A : Type) :=
| Ok (a : A)
| Raise (e : Error).
Arguments Ok {A} a.
Arguments Raise {A} e.

Definition M (A : Type) : Type := World -> Result A * World.

Definition ret {A} (a : A) : M A := fun w => (Ok a, w).

Definition raise {A} (e : Error) : M A := fun w => (Raise e, w).

Definition bind {A B} (m : M A) (k : A -> M B) : M B :=
  fun w =>
    match m w with
    | (Ok a, w') => k a w'
    | (Raise e, w') => (Raise e, w')
    end.

Notation "x <- m ;; k" := (bind m (fun x => k))
  (at level 61, m at next level, right associativity).
Notation "m ;;; k" := (bind m (fun _ => k))
  (at level 61, right associativity).

Definition get_store : M Store := fun w => (Ok (db w), w).

Definition set_store (s : Store) : M unit :=
  fun w => (Ok tt, mkWorld s (background_tasks w) (producer_sent w) (trace w)).

Definition emit (e : Effect) : M unit :=
  fun w => (Ok tt, mkWorld (db w) (background_tasks w) (producer_sent w)
                           (trace w ++ [e])).

(** ** Configuration *)

Definition KAFKA_TOPIC : string := "logs".

(** ** Store gateway *)

(** [db.query(User).filter(User.id == user_id).first()] *)
Definition query_user_first (uid : Z) (s : Store) : option User :=
  find (fun u => user_id u =? uid) (users_table s).

(** [db.commit()] of the pending state [s]: raises when the engine refuses
    the write, and the store is then left as it was. *)
Definition commit (s : Store) : M unit :=
  fun w => if store_writable (db w)
           then (set_store s ;;; emit Committed) w
           else (Raise StorageError, w).

(** ** User endpoints *)

(** [GET /users/]: [db.query(User).offset(skip).limit(limit).all()].
    An absent query parameter takes its default, [skip = 0] and
    [limit = 10].  A negative OFFSET counts as zero; a negative LIMIT puts
    no bound on the rows. *)
Definition sql_offset {A} (n : Z) (rows : list A) : list A :=
  skipn (Z.to_nat n) rows.

Definition sql_limit {A} (n : Z) (rows : list A) : list A :=
  if n <? 0 then rows else firstn (Z.to_nat n) rows.

Definition default_arg (d : Z) (o : option Z) : Z :=
  match o with Some v => v | None => d end.

Definition get_users (skip limit : option Z) : M (list User) :=
  s <- get_store ;;
  ret (sql_limit (default_arg 10 limit) (sql_offset (default_arg 0 skip) (users_table s))).

(** [POST /users/] *)
Definition create_user (user_data : UserCreate) : M User :=
  s <- get_store ;;
  let db_user := mkUser (next_user_id s) (uc_username user_data)
                        (uc_email user_data) (uc_password_hash user_data) in
  commit (mkStore (users_table s ++ [db_user]) (next_user_id s + 1) (products_table s)
                  (orders_table s) (next_order_id s) (store_writable s)) ;;;
  ret db_user.

(** [GET /users/{user_id}] *)
Definition get_user (uid : Z) : M User :=
  s <- get_store ;;
  match query_user_first uid s with
  | None => raise (HTTPException 404 "User not found")
  | Some user => ret user
  end.

(** The loop [for key, value in user_data.dict().items(): setattr(...)]. *)
Definition apply_user_data (user_data : UserCreate) (u : User) : User :=
  mkUser (user_id u) (uc_username user_data) (uc_email user_data)
         (uc_password_hash user_data).

(** Writing a changed row back: the UPDATE is keyed by the primary key. *)
Definition update_rows (uid : Z) (u' : User) (rows : list User) : list User :=
  map (fun u => if user_id u =? uid then u' else u) rows.

(** [PUT /users/{user_id}] *)
Definition update_user (uid : Z) (user_data : UserCreate) : M User :=
  s <- get_store ;;
  match query_user_first uid s with
  | None => raise (HTTPException 404 "User not found")
  | Some db_user =>
      let db_user' := apply_user_data user_data db_user in
      commit (mkStore (update_rows uid db_user' (users_table s)) (next_user_id s)
                      (products_table s) (orders_table s) (next_order_id s)
                      (store_writable s)) ;;;
      ret db_user'
  end.

(** Removing a row: the DELETE is keyed by the primary key. *)
Definition delete_rows (uid : Z) (rows : list User) : list User :=
  filter (fun u => negb (user_id u =? uid)) rows.

(** [DELETE /users/{user_id}]; the result is the confirmation message. *)
Definition delete_user (uid : Z) : M string :=
  s <- get_store ;;
  match query_user_first uid s with
  | None => raise (HTTPException 404 "User not found")
  | Some db_user =>
      commit (mkStore (delete_rows (user_id db_user) (users_table s)) (next_user_id s)
                      (products_table s) (orders_table s) (next_order_id s)
                      (store_writable s)) ;;;
      ret "User deleted successfully"
  end.

(** ** Order workflow *)

(** [sum(...)]: Python's [sum] starts from [0] and adds from the left. *)
Definition py_sum (xs : list Z) : Z := fold_left Z.add xs 0.

(** [calculate_total_price]: the request is not looked at. *)
Definition calculate_total_price (order_data : OrderCreate)
    (products : list Product) : Z :=
  let total_price := py_sum (map price products) in
  total_price.

(** [validate_user_input]: the body is [pass]. *)
Definition validate_user_input (order_data : OrderCreate) : M unit :=
  ret tt.

(** [get_products]: [db.query(Product).all()] *)
Definition get_products : M (list Product) :=
  s <- get_store ;;
  ret (products_table s).

(** [background_tasks.add_task(...)] *)
Definition add_task (t : Task) : M unit :=
  fun w => emit (Scheduled t)
             (mkWorld (db w) (background_tasks w ++ [t]) (producer_sent w)
                      (trace w)).

(** [producer.send(topic, value=...)] *)
Definition producer_send (topic : string) (value : Json) : M unit :=
  fun w => emit (Published (mkRecord topic value))
             (mkWorld (db w) (background_tasks w)
                      (producer_sent w ++ [mkRecord topic value]) (trace w)).

(** The body of [create_order], its dependencies already resolved. *)
Definition create_order (order_data : OrderCreate) (products : list Product)
    (email_sender : EmailSender) : M Order :=
  validate_user_input order_data ;;;
  let total_price := calculate_total_price order_data products in
  s <- get_store ;;
  let db_order := mkOrder (next_order_id s) (oc_user_id order_data)
                          (oc_products order_data) (oc_email order_data)
                          total_price in
  commit (mkStore (users_table s) (next_user_id s) (products_table s)
                  (orders_table s ++ [db_order]) (next_order_id s + 1)
                  (store_writable s)) ;;;
  add_task (send_confirmation_email (order_id db_order) (oc_email order_data)
                                    email_sender) ;;;
  add_task (process_payment (order_id db_order)) ;;;
  let log_data := JObj [("event", JStr "order_created");
                        ("order_id", JInt (order_id db_order))] in
  producer_send KAFKA_TOPIC log_data ;;;
  ret db_order.

(** [POST /orders/]: the framework resolves [Depends(get_products)] and
    [Depends()] for the email sender, then calls [create_order]. *)
Definition post_orders (order_data : OrderCreate) : M Order :=
  products <- get_products ;;
  create_order order_data products mkEmailSender.

(** ** Vocabulary of the properties *)

(** The price of the product with id [pid], if the store has one. *)
Definition price_of (pid : Z) (ps : list Product) : option Z :=
  option_map price (find (fun p => product_id p =? pid) ps).

(** The total the specification asks for: the prices of the products whose
    ids the request lists, added up. *)
Definition listed_total (ids : list Z) (ps : list Product) : Z :=
  py_sum (map (fun pid => match price_of pid ps with
                          | Some c => c
                          | None => 0
                          end) ids).

Definition user_exists (uid : Z) (s : Store) : Prop :=
  exists u, In u (users_table s) /\ user_id u = uid.

Definition is_not_found {A} (r : Result A) : Prop :=
  exists detail, r = Raise (HTTPException 404 detail).

(** Primary keys handed out so far are below the counter. *)
Definition users_wf (s : Store) : Prop :=
  Forall (fun u => user_id u < next_user_id s) (users_table s).

Definition empty_store : Store := mkStore [] 1 [] [] 1 true.

Definition empty_world : World := mkWorld empty_store [] [] [].

(** The row [create_order] builds from the request against store [s]. *)
Definition new_order (req : OrderCreate) (s : Store) : Order :=
  mkOrder (next_order_id s) (oc_user_id req) (oc_products req) (oc_email req)
          (calculate_total_price req (products_table s)).

Definition order_created_event (oid : Z) : ProducerRecord :=
  mkRecord KAFKA_TOPIC (JObj [("event", JStr "order_created");
                              ("order_id", JInt oid)]).

Definition order_tasks (o : Order) : list Task :=
  [send_confirmation_email (order_id o) (order_email o) mkEmailSender;
   process_payment (order_id o)].

(** The email rule as the specification words it: the email on the stored
    order is the email of the user row the request's [user_id] names. *)
Definition order_email_is_owner_email : Prop :=
  forall req w o w' u,
    post_orders req w = (Ok o, w') ->
    query_user_first (oc_user_id req) (db w) = Some u ->
    order_email o = email u.

(** The paging rule as the specification words it, for every [skip] and
    [limit]: drop the first [skip] users, then take at most [limit]. *)
Definition get_users_drops_then_takes : Prop :=
  forall skip limit w,
    fst (get_users (Some skip) (Some limit) w)
    = Ok (firstn (Z.to_nat limit)
                 (skipn (Z.to_nat skip) (users_table (db w)))).

(** ** Sample data *)

Definition alice : User := mkUser 1 "alice" "a@b.com" "hash-a".
Definition bob : User := mkUser 2 "bob" "bob@example.org" "hash-b".

Definition shop_store : Store :=
  mkStore [alice; bob] 3
          [mkProduct 10 500; mkProduct 11 750; mkProduct 12 10000]
          [] 1 true.

Definition shop_world : World := mkWorld shop_store [] [] [].


(** ** The routes of the application *)

(** One request to the service: the route and its parameters. *)
Inductive Call :=
| GetUsers (skip limit : option Z)
| CreateUser (user_data : UserCreate)
| GetUser (uid : Z)
| UpdateUser (uid : Z) (user_data : UserCreate)
| DeleteUser (uid : Z)
| PostOrders (order_data : OrderCreate).

(** What a route returns on success. *)
Inductive Response :=
| RUsers (rows : list User)
| RUser (row : User)
| RMessage (message : string)
| ROrder (row : Order).

Definition fmap {A B} (f : A -> B) (m : M A) : M B :=
  x <- m ;; ret (f x).

(** Dispatch on the route, as the decorators of the handlers declare it. *)
Definition serve (c : Call) : M Response :=
  match c with
  | GetUsers skip limit => fmap RUsers (get_users skip limit)
  | CreateUser user_data => fmap RUser (create_user user_data)
  | GetUser uid => fmap RUser (get_user uid)
  | UpdateUser uid user_data => fmap RUser (update_user uid user_data)
  | DeleteUser uid => fmap RMessage (delete_user uid)
  | PostOrders order_data => fmap ROrder (post_orders order_data)
  end.

(** The storage engine going down or coming back between two requests. *)
Definition set_writable (b : bool) (w : World) : World :=
  let s := db w in
  mkWorld (mkStore (users_table s) (next_user_id s) (products_table s)
                   (orders_table s) (next_order_id s) b)
          (background_tasks w) (producer_sent w) (trace w).

(** The worlds the service gets to: it starts with a catalogue [ps] of
    products and nothing else, then serves requests one after the other
    while the engine comes and goes. *)
Inductive reachable (ps : list Product) : World -> Prop :=
| reach_start b :
    reachable ps (mkWorld (mkStore [] 1 ps [] 1 b) [] [] [])
| reach_serve w c :
    reachable ps w -> reachable ps (snd (serve c w))
| reach_engine w b :
    reachable ps w -> reachable ps (set_writable b w).

Definition orders_wf (s : Store) : Prop :=
  Forall (fun o => order_id o < next_order_id s) (orders_table s).

(** What holds of every world the service gets to. *)
Record service_inv (ps : list Product) (w : World) : Prop := mkInv {
  inv_users_wf : users_wf (db w);
  inv_users_nodup : NoDup (map user_id (users_table (db w)));
  inv_orders_wf : orders_wf (db w);
  inv_orders_nodup : NoDup (map order_id (orders_table (db w)));
  inv_products : products_table (db w) = ps;
  inv_events :
    producer_sent w
    = map (fun o => order_created_event (order_id o)) (orders_table (db w));
  inv_tasks :
    background_tasks w = flat_map order_tasks (orders_table (db w))
}.

(** ** Text the service writes *)

(** [str(n)] of an integer, as an f-string and [json.dumps] render it. *)
Definition py_str (n : Z) : string :=
  NilZero.string_of_int (Z.to_int n).
Arguments py_str : simpl never.

(** [EmailSender.send_email]: the line it prints. *)
Definition send_email (self : EmailSender) (email subject message : string)
    : string :=
  ("Sending email to " ++ email ++ " with subject '" ++ subject
   ++ "' and message '" ++ message ++ "'")%string.

(** The bodies of the two actors: the lines a task prints when it runs.
    The [time.sleep] calls are not represented. *)
Definition run_task (t : Task) : list string :=
  match t with
  | send_confirmation_email order_id email email_sender =>
      [send_email email_sender email "Order Confirmation"
         ("Your order with ID " ++ py_str order_id
          ++ " has been confirmed.")%string]
  | process_payment order_id =>
      [("Payment processed for order " ++ py_str order_id)%string]
  end.

(** ** The producer's [value_serializer]

    Strings are read as sequences of code points below 256. *)

Definition dquote : ascii := ascii_of_nat 34.

Definition hex_digit (n : nat) : ascii :=
  nth n (list_ascii_of_string "0123456789abcdef") "0"%char.

(** One character of a string under [json.dumps] with [ensure_ascii]: the
    named escapes, the character itself between space and tilde, and a
    four-digit [\u] escape otherwise. *)
Definition escape_char (c : ascii) : string :=
  let n := nat_of_ascii c in
  if (n =? 34)%nat then String "\" (String dquote "")
  else if (n =? 92)%nat then "\\"
  else if (n =? 8)%nat then "\b"
  else if (n =? 12)%nat then "\f"
  else if (n =? 10)%nat then "\n"
  else if (n =? 13)%nat then "\r"
  else if (n =? 9)%nat then "\t"
  else if ((32 <=? n) && (n <=? 126))%nat then String c ""
  else String "\" (String "u" (String "0" (String "0"
         (String (hex_digit (n / 16)) (String (hex_digit (n mod 16)) ""))))).

Fixpoint escape_string (s : string) : string :=
  match s with
  | EmptyString => EmptyString
  | String c rest => (escape_char c ++ escape_string rest)%string
  end.

Definition encode_basestring_ascii (s : string) : string :=
  String dquote (escape_string s ++ String dquote "")%string.

(** [json.dumps] with its default separators. *)
Fixpoint json_dumps (v : Json) : string :=
  match v with
  | JInt n => py_str n
  | JStr s => encode_basestring_ascii s
  | JObj fields =>
      let fix items (l : list (string * Json)) : string :=
        match l with
        | [] => EmptyString
        | (k, x) :: rest =>
            (encode_basestring_ascii k ++ ": " ++ json_dumps x
             ++ match rest with
                | [] => EmptyString
                | _ :: _ => ", " ++ items rest
                end)%string
        end in
      ("{" ++ items fields ++ "}")%string
  end.

(** The members of an object as [json_dumps] writes them. *)
Definition json_items (fields : list (string * Json)) : string :=
  (fix items (l : list (string * Json)) : string :=
     match l with
     | [] => EmptyString
     | (k, x) :: rest =>
         (encode_basestring_ascii k ++ ": " ++ json_dumps x
          ++ match rest with
             | [] => EmptyString
             | _ :: _ => ", " ++ items rest
             end)%string
     end) fields.

(** [str.encode('utf-8')] on code points below 256. *)
Definition utf8_encode_char (c : ascii) : string :=
  let n := nat_of_ascii c in
  if (n <? 128)%nat then String c ""
  else String (ascii_of_nat (192 + n / 64))
              (String (ascii_of_nat (128 + n mod 64)) "").

Fixpoint utf8_encode (s : string) : string :=
  match s with
  | EmptyString => EmptyString
  | String c rest => (utf8_encode_char c ++ utf8_encode rest)%string
  end.

(** [lambda v: json.dumps(v).encode('utf-8')] *)
Definition value_serializer (v : Json) : string :=
  utf8_encode (json_dumps v).

(** A byte between space and tilde. *)
Definition printable (c : ascii) : bool :=
  ((32 <=? nat_of_ascii c) && (nat_of_ascii c <=? 126))%nat.

Fixpoint string_forallb (p : ascii -> bool) (s : string) : bool :=
  match s with
  | EmptyString => true
  | String c rest => p c && string_forallb p rest
  end.

Definition all_printable (s : string) : bool := string_forallb printable s.

(** A minus sign or a decimal digit. *)
Definition sign_or_digit (c : ascii) : bool :=
  ((nat_of_ascii c =? 45) ||
   ((48 <=? nat_of_ascii c) && (nat_of_ascii c <=? 57)))%nat.

(** A text between double quotes. *)
Definition quoted (s : string) : string :=
  String dquote (s ++ String dquote "")%string.

(** The [log_data] dictionary of [create_order]. *)
Definition log_data (oid : Z) : Json :=
  JObj [("event", JStr "order_created"); ("order_id", JInt oid)].

Definition signup_world : World :=
  snd (serve (CreateUser (mkUserCreate "carol" "c@d.org" "hash-c"))
             (mkWorld (mkStore [] 1 [mkProduct 10 500] [] 1 true) [] [] [])).


Definition shop_request : OrderCreate := mkOrderCreate 2 [10; 11] "a@b.com".

Definition shop_order : Order := mkOrder 1 2 [10; 11] "a@b.com" 11250.

Definition shop_world_ordered : World :=
  mkWorld (mkStore [alice; bob] 3
                   [mkProduct 10 500; mkProduct 11 750; mkProduct 12 10000]
                   [shop_order] 2 true)
          [send_confirmation_email 1 "a@b.com" mkEmailSender;
           process_payment 1]
          [mkRecord "logs" (JObj [("event", JStr "order_created");
                                  ("order_id", JInt 1)])]
          [Committed;
           Scheduled (send_confirmation_email 1 "a@b.com" mkEmailSender);
           Scheduled (process_payment 1);
           Published (mkRecord "logs" (JObj [("event", JStr "order_created");
                                             ("order_id", JInt 1)]))].

(** ** Running the monad *)

Ltac run_handler :=
  unfold create_user, get_user, update_user, delete_user, get_users,
         post_orders, create_order, validate_user_input, get_products,
         add_task, producer_send, commit, bind, ret, raise, get_store,
         set_store, emit in *;
  cbn [db background_tasks producer_sent trace fst snd] in *.

(** ** Facts about looking rows up *)

Section Lookup.

Variable uid : Z.

Lemma query_first_fresh rows (u : User) :
  Forall (fun r => user_id r < user_id u) rows ->
  find (fun r => user_id r =? user_id u) (rows ++ [u]) = Some u.
Proof.
  induction 1 as [|r rows Hr _ IH]; cbn.
  - now rewrite Z.eqb_refl.
  - destruct (Z.eqb_spec (user_id r) (user_id u)); [lia | exact IH].
Qed.

Lemma query_first_updated (u' : User) rows r :
  user_id u' = uid ->
  find (fun r => user_id r =? uid) rows = Some r ->
  find (fun r => user_id r =? uid) (update_rows uid u' rows) = Some u'.
Proof.
  intros Hid. induction rows as [|x rows IH]; cbn; [discriminate|].
  destruct (Z.eqb_spec (user_id x) uid) as [E|E].
  - intros _. now rewrite Hid, Z.eqb_refl.
  - destruct (Z.eqb_spec (user_id x) uid); [contradiction | exact IH].
Qed.

Lemma query_first_other (u' : User) rows j :
  user_id u' = uid -> j <> uid ->
  find (fun r => user_id r =? j) (update_rows uid u' rows)
  = find (fun r => user_id r =? j) rows.
Proof.
  intros Hid Hj. induction rows as [|x rows IH]; cbn; [reflexivity|].
  fold (update_rows uid u' rows). rewrite IH.
  destruct (Z.eqb_spec (user_id x) uid) as [E|E]; [|reflexivity].
  rewrite Hid. destruct (Z.eqb_spec uid j); [congruence|].
  destruct (Z.eqb_spec (user_id x) j); [congruence | reflexivity].
Qed.

Lemma update_rows_frame (u' : User) rows i r :
  nth_error rows i = Some r -> user_id r <> uid ->
  nth_error (update_rows uid u' rows) i = Some r.
Proof.
  intros Hi Hr. unfold update_rows.
  rewrite nth_error_map, Hi. cbn.
  destruct (Z.eqb_spec (user_id r) uid); [contradiction | reflexivity].
Qed.

Lemma update_rows_ids (u' : User) rows :
  user_id u' = uid ->
  map user_id (update_rows uid u' rows) = map user_id rows.
Proof.
  intros Hid. unfold update_rows. rewrite map_map.
  apply map_ext. intros x.
  destruct (Z.eqb_spec (user_id x) uid); congruence.
Qed.

Lemma query_first_deleted rows :
  find (fun r => user_id r =? uid) (delete_rows uid rows) = None.
Proof.
  induction rows as [|x rows IH]; cbn; [reflexivity|].
  destruct (Z.eqb_spec (user_id x) uid) as [E|E]; cbn; [exact IH|].
  destruct (Z.eqb_spec (user_id x) uid); [contradiction | exact IH].
Qed.

Lemma query_first_id rows r :
  find (fun r => user_id r =? uid) rows = Some r -> user_id r = uid.
Proof.
  intros H. apply find_some in H. now apply Z.eqb_eq.
Qed.

Lemma query_first_none (s : Store) :
  query_user_first uid s = None <-> ~ user_exists uid s.
Proof.
  unfold query_user_first, user_exists. split.
  - intros H [u [Hin Hu]].
    apply (find_none _ _ H) in Hin. cbn in Hin. apply Z.eqb_neq in Hin.
    contradiction.
  - intros H. destruct (find _ _) as [u|] eqn:E; [|reflexivity].
    exfalso. apply H. exists u. apply find_some in E.
    split; [tauto | now apply Z.eqb_eq].
Qed.

End Lookup.

(** ** The key counter stays ahead of the rows *)

Lemma empty_store_wf : users_wf empty_store.
Proof. constructor. Qed.

Lemma shop_store_wf : users_wf shop_store.
Proof. unfold users_wf; cbn. repeat (constructor; try (cbn; lia)). Defined.

Lemma create_user_wf d w u w' :
  users_wf (db w) -> create_user d w = (Ok u, w') -> users_wf (db w').
Proof.
  unfold users_wf. run_handler.
  destruct (store_writable (db w)); [|discriminate].
  intros Hwf [= <- <-]. cbn.
  apply Forall_app. split.
  - eapply Forall_impl; [|exact Hwf]. cbn. intros; lia.
  - repeat constructor. cbn. lia.
Qed.

Lemma update_user_wf uid d w u w' :
  users_wf (db w) -> update_user uid d w = (Ok u, w') -> users_wf (db w').
Proof.
  unfold users_wf. run_handler.
  destruct (query_user_first uid (db w)) as [r|] eqn:Q; [|discriminate].
  destruct (store_writable (db w)); [|discriminate].
  intros Hwf [= <- <-]. cbn.
  unfold update_rows. apply Forall_map.
  pose proof (query_first_id _ _ _ Q) as Hr.
  pose proof Hwf as Hall. rewrite Forall_forall in Hall.
  apply find_some in Q. destruct Q as [Hin _]. apply Hall in Hin.
  eapply Forall_impl; [|exact Hwf]. cbn. intros x Hx.
  destruct (user_id x =? uid); cbn; lia.
Qed.

Lemma delete_user_wf uid w m w' :
  users_wf (db w) -> delete_user uid w = (Ok m, w') -> users_wf (db w').
Proof.
  unfold users_wf. run_handler.
  destruct (query_user_first uid (db w)) as [r|]; [|discriminate].
  destruct (store_writable (db w)); [|discriminate].
  intros Hwf [= <- <-]. cbn.
  unfold delete_rows. rewrite Forall_forall in *.
  intros x Hx. apply filter_In in Hx. now apply Hwf.
Qed.

Lemma post_orders_wf req w o w' :
  users_wf (db w) -> post_orders req w = (Ok o, w') -> users_wf (db w').
Proof.
  unfold users_wf. run_handler.
  destruct (store_writable (db w)); [|discriminate].
  now intros Hwf [= <- <-].
Qed.

(** ** User endpoints: properties *)

(** C7. Creating a user and then fetching it by the id it was given returns
    a row whose username, email and password hash are the ones supplied at
    creation. *)
Theorem create_user_then_get_user d w u w' :
  users_wf (db w) ->
  create_user d w = (Ok u, w') ->
  get_user (user_id u) w' = (Ok u, w') /\
  username u = uc_username d /\
  email u = uc_email d /\
  password_hash u = uc_password_hash d.
Proof.
  intros Hwf. run_handler.
  destruct (store_writable (db w)); [|discriminate].
  intros [= <- <-]. cbn. unfold query_user_first. cbn.
  set (u := mkUser _ _ _ _).
  change (next_user_id (db w)) with (user_id u).
  rewrite query_first_fresh; [auto|exact Hwf].
Qed.

Lemma create_user_then_get_user_witness :
  users_wf (db shop_world) /\
  exists u w',
    create_user (mkUserCreate "carol" "c@d.org" "hash-c") shop_world = (Ok u, w') /\
    get_user 3 w' = (Ok u, w') /\
    username u = "carol" /\ email u = "c@d.org" /\ password_hash u = "hash-c".
Proof.
  split; [exact shop_store_wf|].
  pose proof (create_user_then_get_user
                (mkUserCreate "carol" "c@d.org" "hash-c") shop_world
                _ _ shop_store_wf eq_refl) as H.
  eexists. eexists. split; [cbv; reflexivity | exact H].
Defined.

(** C8. After a successful PUT on a user, fetching that user returns the row
    with every field of the payload written in; the id is the one asked
    for, every row with another id is where and what it was, and products
    and orders are untouched. *)
Theorem update_user_then_get_user uid d w u w' :
  update_user uid d w = (Ok u, w') ->
  get_user uid w' = (Ok u, w') /\
  username u = uc_username d /\
  email u = uc_email d /\
  password_hash u = uc_password_hash d /\
  user_id u = uid /\
  (forall j, j <> uid -> fst (get_user j w') = fst (get_user j w)) /\
  (forall i r, nth_error (users_table (db w)) i = Some r -> user_id r <> uid ->
               nth_error (users_table (db w')) i = Some r) /\
  map user_id (users_table (db w')) = map user_id (users_table (db w)) /\
  products_table (db w') = products_table (db w) /\
  orders_table (db w') = orders_table (db w).
Proof.
  run_handler. unfold query_user_first.
  destruct (find _ (users_table (db w))) as [r|] eqn:Q; [|discriminate].
  destruct (store_writable (db w)); [|discriminate].
  intros [= <- <-]. cbn.
  pose proof (query_first_id _ _ _ Q) as Hr.
  assert (Hid : user_id (apply_user_data d r) = uid) by exact Hr.
  rewrite (query_first_updated uid _ _ r Hid Q).
  repeat split; auto.
  - intros j Hj. rewrite (query_first_other uid _ _ j Hid Hj).
    now destruct (find (fun r0 => user_id r0 =? j) _).
  - intros i x Hi Hx. now apply update_rows_frame.
  - now apply update_rows_ids.
Qed.

Lemma update_user_then_get_user_witness :
  exists u w',
    update_user 1 (mkUserCreate "alicia" "al@b.com" "hash-z") shop_world
    = (Ok u, w') /\
    get_user 1 w' = (Ok u, w') /\
    u = mkUser 1 "alicia" "al@b.com" "hash-z" /\
    fst (get_user 2 w') = Ok bob.
Proof.
  eexists. eexists. split; [cbv; reflexivity|].
  pose proof (update_user_then_get_user 1
                (mkUserCreate "alicia" "al@b.com" "hash-z") shop_world
                _ _ eq_refl) as H.
  destruct H as (Hget & _ & _ & _ & _ & Hother & _).
  split; [exact Hget|]. split; [reflexivity|].
  exact (eq_trans (Hother 2 ltac:(lia)) eq_refl).
Defined.

(** C9. GET, PUT and DELETE on a user id answer 404 exactly when the store
    has no user with that id, and after a successful DELETE a GET of the
    same id answers 404. *)
Theorem user_not_found_iff_absent uid w :
  (is_not_found (fst (get_user uid w)) <-> ~ user_exists uid (db w)) /\
  (forall d, is_not_found (fst (update_user uid d w))
             <-> ~ user_exists uid (db w)) /\
  (is_not_found (fst (delete_user uid w)) <-> ~ user_exists uid (db w)) /\
  (forall m w', delete_user uid w = (Ok m, w') ->
                is_not_found (fst (get_user uid w'))).
Proof.
  pose proof (query_first_none uid (db w)) as Hnone.
  unfold is_not_found. run_handler.
  destruct (query_user_first uid (db w)) as [r|] eqn:Q.
  - assert (Hex : ~ ~ user_exists uid (db w)).
    { intros H. apply Hnone in H. discriminate. }
    repeat split.
    + intros [? H]; discriminate.
    + intros H; contradiction.
    + intros [? H]. destruct (store_writable (db w)); discriminate.
    + intros H; contradiction.
    + intros [? H]. destruct (store_writable (db w)); discriminate.
    + intros H; contradiction.
    + intros m w'. destruct (store_writable (db w)); [|discriminate].
      intros [= <- <-]. cbn. unfold query_user_first in *. cbn.
      rewrite (query_first_id _ _ _ Q), query_first_deleted.
      now eexists.
  - assert (Hex : ~ user_exists uid (db w)) by now apply Hnone.
    repeat split; intros; try assumption; try discriminate; now eexists.
Qed.

Lemma user_not_found_iff_absent_witness :
  (exists m w', delete_user 2 shop_world = (Ok m, w') /\
                is_not_found (fst (get_user 2 w'))) /\
  ~ user_exists 7 (db shop_world) /\
  is_not_found (fst (get_user 7 shop_world)).
Proof.
  pose proof (user_not_found_iff_absent 2 shop_world) as (_ & _ & _ & Hdel).
  pose proof (user_not_found_iff_absent 7 shop_world) as (Hget & _).
  assert (Habs : ~ user_exists 7 (db shop_world)).
  { intros [u [Hin Hu]]. cbn in Hin.
    destruct Hin as [<-|[<-|[]]]; discriminate. }
  split.
  - eexists. eexists. split; [cbv; reflexivity|]. eapply Hdel. reflexivity.
  - split; [exact Habs | apply Hget; exact Habs].
Defined.

(** C10, as stated, fails: with two users in the table, [skip = 0] and
    [limit = -1] return both rows, not at most [limit] of them. *)
Lemma get_users_drops_then_takes_fails : ~ get_users_drops_then_takes.
Proof.
  intros H. specialize (H 0 (-1) shop_world). discriminate H.
Qed.

(** C10, amended. For non-negative [skip] and [limit], GET /users/ drops
    the first [skip] rows of the users table and keeps at most [limit] of
    the rest; an omitted [skip] is 0 and an omitted [limit] is 10, so a
    call without parameters returns at most 10 users. *)
Theorem get_users_page skip limit w :
  0 <= skip -> 0 <= limit ->
  get_users (Some skip) (Some limit) w
  = (Ok (firstn (Z.to_nat limit)
                (skipn (Z.to_nat skip) (users_table (db w)))), w) /\
  get_users None (Some limit) w = get_users (Some 0) (Some limit) w /\
  get_users (Some skip) None w = get_users (Some skip) (Some 10) w /\
  get_users None None w = get_users (Some 0) (Some 10) w /\
  exists page, get_users None None w = (Ok page, w) /\ (List.length page <= 10)%nat.
Proof.
  intros Hs Hl. run_handler. unfold sql_limit, sql_offset. cbn.
  destruct (Z.ltb_spec limit 0); [lia|].
  repeat split.
  eexists. split; [reflexivity|].
  apply (firstn_le_length 10).
Qed.

Lemma get_users_page_witness :
  0 <= 1 /\ 0 <= 1 /\
  get_users (Some 1) (Some 1) shop_world = (Ok [bob], shop_world).
Proof.
  split; [lia|]. split; [lia|].
  apply (get_users_page 1 1 shop_world); lia.
Defined.

(** ** Order workflow: what one call does *)

(** The whole of one POST on orders, in closed form. *)
Lemma post_orders_run req w :
  post_orders req w =
  if store_writable (db w) then
    let s := db w in
    let o := new_order req s in
    (Ok o,
     mkWorld (mkStore (users_table s) (next_user_id s) (products_table s)
                      (orders_table s ++ [o]) (next_order_id s + 1)
                      (store_writable s))
             (background_tasks w ++ order_tasks o)
             (producer_sent w ++ [order_created_event (order_id o)])
             (trace w ++ [Committed;
                          Scheduled (send_confirmation_email
                                       (order_id o) (order_email o) mkEmailSender);
                          Scheduled (process_payment (order_id o));
                          Published (order_created_event (order_id o))]))
  else (Raise StorageError, w).
Proof.
  run_handler. destruct (store_writable (db w)); [|reflexivity].
  cbn. unfold new_order, order_tasks, order_created_event. cbn.
  repeat rewrite <- app_assoc. reflexivity.
Qed.

Lemma post_orders_ok req w o w' :
  post_orders req w = (Ok o, w') ->
  store_writable (db w) = true /\ o = new_order req (db w).
Proof.
  rewrite post_orders_run.
  destruct (store_writable (db w)); [|discriminate].
  now intros [= <- <-].
Qed.

Lemma post_orders_writable req w :
  store_writable (db w) = true ->
  post_orders req w = (Ok (new_order req (db w)), snd (post_orders req w)).
Proof.
  intros Hw. rewrite post_orders_run, Hw. reflexivity.
Qed.

(** What the stored total is: the prices of every product row. *)
Lemma post_orders_total req w o w' :
  post_orders req w = (Ok o, w') ->
  total_price o = py_sum (map price (products_table (db w))).
Proof.
  intros H. apply post_orders_ok in H. destruct H as [_ ->]. reflexivity.
Qed.

(** ** Order workflow: properties *)

(** C1. The stored total is meant to be the sum of the prices of the
    products the request lists.  With products 10, 11 and 12 priced 500,
    750 and 10000 in the store, an order for products 10 and 11 is stored
    with total 11250, while the listed products add up to 1250. *)
Theorem create_order_total_counts_unlisted_products :
  let req := mkOrderCreate 1 [10; 11] "a@b.com" in
  exists o w',
    post_orders req shop_world = (Ok o, w') /\
    total_price o = 11250 /\
    listed_total (oc_products req) (products_table (db shop_world)) = 1250.
Proof.
  cbv zeta. eexists. eexists.
  split; [cbv; reflexivity|]. split; reflexivity.
Qed.

(** C2. A request is meant to be rejected, with nothing stored, when its
    product list is empty, when it names a product or a user the store does
    not have, or when its email is malformed.  Each of the four requests
    below is accepted and its order is stored. *)
Theorem create_order_accepts_invalid_requests :
  let accepted req :=
    exists o w', post_orders req shop_world = (Ok o, w') /\
                 orders_table (db w') = [o] in
  accepted (mkOrderCreate 1 [] "a@b.com") /\
  accepted (mkOrderCreate 1 [10; 99] "a@b.com") /\
  accepted (mkOrderCreate 42 [10] "a@b.com") /\
  accepted (mkOrderCreate 1 [10] "not an email").
Proof.
  cbv zeta.
  repeat split; eexists; eexists; (split; [cbv; reflexivity | reflexivity]).
Qed.



(** C4. A successful order creation hands the producer exactly one record;
    it goes to the log topic and its value is the JSON object with [event]
    set to the string order_created and [order_id] set to the id of the
    order row just stored. *)
Theorem create_order_publishes_one_event req w o w' :
  post_orders req w = (Ok o, w') ->
  producer_sent w' =
    producer_sent w ++
    [mkRecord KAFKA_TOPIC (JObj [("event", JStr "order_created");
                                 ("order_id", JInt (order_id o))])] /\
  KAFKA_TOPIC = "logs" /\
  orders_table (db w') = orders_table (db w) ++ [o].
Proof.
  rewrite post_orders_run.
  destruct (store_writable (db w)); [|discriminate].
  intros [= <- <-]. repeat split.
Qed.

Lemma create_order_publishes_one_event_witness :
  exists o w',
    post_orders (mkOrderCreate 1 [10; 11] "a@b.com") shop_world = (Ok o, w') /\
    producer_sent w' =
      [mkRecord "logs" (JObj [("event", JStr "order_created");
                              ("order_id", JInt 1)])] /\
    order_id o = 1.
Proof.
  pose proof (post_orders_writable
                (mkOrderCreate 1 [10; 11] "a@b.com") shop_world eq_refl) as E.
  pose proof (create_order_publishes_one_event
                (mkOrderCreate 1 [10; 11] "a@b.com") shop_world _ _ E)
    as (Hsent & _ & _).
  exists (new_order (mkOrderCreate 1 [10; 11] "a@b.com") (db shop_world)).
  exists (snd (post_orders (mkOrderCreate 1 [10; 11] "a@b.com") shop_world)).
  split; [exact E|].
  split; [exact Hsent | reflexivity].
Defined.

(** C5. A successful order creation schedules exactly two background tasks:
    the confirmation email, given the id and the email of the order, and
    the payment processing, given the id of the order. *)
Theorem create_order_schedules_two_tasks req w o w' :
  post_orders req w = (Ok o, w') ->
  background_tasks w' =
    background_tasks w ++
    [send_confirmation_email (order_id o) (order_email o) mkEmailSender;
     process_payment (order_id o)] /\
  order_email o = oc_email req /\
  In o (orders_table (db w')).
Proof.
  rewrite post_orders_run.
  destruct (store_writable (db w)); [|discriminate].
  intros [= <- <-]. repeat split.
  cbn. apply in_or_app. right. now left.
Qed.

Lemma create_order_schedules_two_tasks_witness :
  exists o w',
    post_orders (mkOrderCreate 1 [10; 11] "a@b.com") shop_world = (Ok o, w') /\
    background_tasks w' =
      [send_confirmation_email 1 "a@b.com" mkEmailSender; process_payment 1].
Proof.
  pose proof (post_orders_writable
                (mkOrderCreate 1 [10; 11] "a@b.com") shop_world eq_refl) as E.
  pose proof (create_order_schedules_two_tasks
                (mkOrderCreate 1 [10; 11] "a@b.com") shop_world _ _ E)
    as (Htasks & _).
  exists (new_order (mkOrderCreate 1 [10; 11] "a@b.com") (db shop_world)).
  exists (snd (post_orders (mkOrderCreate 1 [10; 11] "a@b.com") shop_world)).
  split; [exact E | exact Htasks].
Defined.

(** C6, as stated, fails: user 1 has email a@b.com, an order for user 1
    that carries the email x@y.com is stored with x@y.com. *)
Lemma order_email_is_owner_email_fails : ~ order_email_is_owner_email.
Proof.
  intros H.
  specialize (H (mkOrderCreate 1 [10] "x@y.com") shop_world _ _ alice
                (post_orders_writable
                   (mkOrderCreate 1 [10] "x@y.com") shop_world eq_refl)
                eq_refl).
  discriminate H.
Qed.

(** C6, amended. The email stored on a created order is the email supplied
    in the request; no user row is read. *)
Theorem order_email_is_request_email req w o w' :
  post_orders req w = (Ok o, w') ->
  order_email o = oc_email req.
Proof.
  intros H. apply post_orders_ok in H. destruct H as [_ ->]. reflexivity.
Qed.

Lemma order_email_is_request_email_witness :
  exists o w',
    post_orders (mkOrderCreate 1 [10] "x@y.com") shop_world = (Ok o, w') /\
    order_email o = "x@y.com".
Proof.
  pose proof (post_orders_writable
                (mkOrderCreate 1 [10] "x@y.com") shop_world eq_refl) as E.
  pose proof (order_email_is_request_email
                (mkOrderCreate 1 [10] "x@y.com") shop_world _ _ E) as H.
  exists (new_order (mkOrderCreate 1 [10] "x@y.com") (db shop_world)).
  exists (snd (post_orders (mkOrderCreate 1 [10] "x@y.com") shop_world)).
  split; [exact E | exact H].
Defined.

(** ** Further facts about rows *)

Lemma find_app_last {A} (p : A -> bool) rows x :
  p x = false -> find p (rows ++ [x]) = find p rows.
Proof.
  intros Hx. induction rows as [|r rows IH]; cbn.
  - now rewrite Hx.
  - now rewrite IH.
Qed.

Lemma query_first_delete_other uid j rows :
  j <> uid ->
  find (fun r => user_id r =? j) (delete_rows uid rows)
  = find (fun r => user_id r =? j) rows.
Proof.
  intros Hj. unfold delete_rows.
  induction rows as [|x rows IH]; cbn; [reflexivity|].
  destruct (Z.eqb_spec (user_id x) uid) as [E|E]; cbn.
  - destruct (Z.eqb_spec (user_id x) j); [congruence | exact IH].
  - now rewrite IH.
Qed.

Lemma delete_rows_fresh uid rows :
  Forall (fun r => user_id r <> uid) rows -> delete_rows uid rows = rows.
Proof.
  unfold delete_rows.
  induction 1 as [|r rows Hr _ IH]; cbn; [reflexivity|].
  destruct (Z.eqb_spec (user_id r) uid); [contradiction|].
  cbn. now rewrite IH.
Qed.

Lemma delete_rows_app uid a b :
  delete_rows uid (a ++ b) = delete_rows uid a ++ delete_rows uid b.
Proof. apply filter_app. Qed.

Lemma update_rows_same uid (u : User) rows :
  user_id u = uid ->
  update_rows uid u (update_rows uid u rows) = update_rows uid u rows.
Proof.
  intros Hu. unfold update_rows. rewrite map_map. apply map_ext.
  intros x. destruct (Z.eqb_spec (user_id x) uid) as [E|E].
  - now rewrite Hu, Z.eqb_refl.
  - destruct (Z.eqb_spec (user_id x) uid); [contradiction | reflexivity].
Qed.

Lemma delete_rows_length uid rows r :
  NoDup (map user_id rows) -> In r rows -> user_id r = uid ->
  (List.length (delete_rows uid rows) + 1 = List.length rows)%nat.
Proof.
  induction rows as [|x rows IH]; cbn; [contradiction|].
  intros Hnd Hin Hr. inversion Hnd as [|? ? Hx Hnd']; subst.
  fold (delete_rows (user_id r) rows).
  destruct (Z.eqb_spec (user_id x) (user_id r)) as [E|E]; cbn.
  - rewrite delete_rows_fresh; [lia|].
    rewrite Forall_forall. intros y Hy Heq. apply Hx.
    rewrite E, <- Heq. now apply in_map.
  - destruct Hin as [->|Hin]; [contradiction|].
    specialize (IH Hnd' Hin eq_refl). lia.
Qed.

Lemma query_first_present rows (u : User) :
  NoDup (map user_id rows) -> In u rows ->
  find (fun r => user_id r =? user_id u) rows = Some u.
Proof.
  induction rows as [|x rows IH]; cbn; [contradiction|].
  intros Hnd Hin. inversion Hnd as [|? ? Hx Hnd']; subst.
  destruct Hin as [->|Hin].
  - now rewrite Z.eqb_refl.
  - destruct (Z.eqb_spec (user_id x) (user_id u)) as [E|E]; [|now apply IH].
    exfalso. apply Hx. rewrite E. now apply in_map.
Qed.

(** ** User endpoints: how calls fail and compose *)

(** X1. A request answered with a 404 changed nothing: the route is a
    GET, PUT or DELETE on a user id the store does not have, the detail
    is the text of the handlers, and the store, the task queue, the
    producer and the trace are as they were. *)
Theorem not_found_changes_nothing c w detail w' :
  serve c w = (Raise (HTTPException 404 detail), w') ->
  w' = w /\
  detail = "User not found" /\
  exists uid,
    (c = GetUser uid \/ (exists d, c = UpdateUser uid d) \/ c = DeleteUser uid)
    /\ ~ user_exists uid (db w).
Proof.
  destruct c as [skip limit|d|uid|uid d|uid|req];
    unfold serve, fmap; run_handler;
    try (destruct (query_user_first uid (db w)) as [r|] eqn:Q);
    try (destruct (store_writable (db w)));
    try discriminate;
    intros [= <- <-]; (split; [reflexivity|]); (split; [reflexivity|]);
    exists uid; (split; [eauto | now apply query_first_none]).
Qed.

Lemma not_found_changes_nothing_witness :
  serve (DeleteUser 7) shop_world
  = (Raise (HTTPException 404 "User not found"), shop_world) /\
  ~ user_exists 7 (db shop_world).
Proof.
  split; [reflexivity|].
  destruct (not_found_changes_nothing
              (DeleteUser 7) shop_world "User not found" shop_world eq_refl)
    as (_ & _ & uid & [[=]|[[d [=]]|[= <-]]] & Habs).
  exact Habs.
Defined.

(** X2. A successful POST on users appends one row, keyed by the counter,
    at the end of the users table; every other id fetches what it fetched
    before, and products, orders, tasks and producer are untouched. *)
Theorem create_user_appends_row d w u w' :
  create_user d w = (Ok u, w') ->
  users_table (db w') = users_table (db w) ++ [u] /\
  user_id u = next_user_id (db w) /\
  (forall j, j <> user_id u -> fst (get_user j w') = fst (get_user j w)) /\
  products_table (db w') = products_table (db w) /\
  orders_table (db w') = orders_table (db w) /\
  background_tasks w' = background_tasks w /\
  producer_sent w' = producer_sent w.
Proof.
  run_handler. destruct (store_writable (db w)); [|discriminate].
  intros [= <- <-]. cbn. repeat split.
  intros j Hj. unfold query_user_first. cbn.
  rewrite find_app_last.
  - now destruct (find _ _).
  - cbn. apply Z.eqb_neq. congruence.
Qed.

Lemma create_user_appends_row_witness :
  exists u w',
    create_user (mkUserCreate "carol" "c@d.org" "hash-c") shop_world
    = (Ok u, w') /\
    users_table (db w') = [alice; bob; u] /\ user_id u = 3.
Proof.
  pose proof (create_user_appends_row
                (mkUserCreate "carol" "c@d.org" "hash-c") shop_world
                _ _ eq_refl) as (Hrows & Hid & _).
  eexists. eexists. split; [cbv; reflexivity|].
  split; [exact Hrows | exact Hid].
Defined.

(** X3. A successful DELETE answers with the confirmation message, removes
    the rows with that id and no other, and leaves every other id
    fetching what it fetched before; products and orders are untouched. *)
Theorem delete_user_removes_only_that_id uid w m w' :
  delete_user uid w = (Ok m, w') ->
  m = "User deleted successfully" /\
  (forall r, In r (users_table (db w'))
             <-> In r (users_table (db w)) /\ user_id r <> uid) /\
  (forall j, j <> uid -> fst (get_user j w') = fst (get_user j w)) /\
  products_table (db w') = products_table (db w) /\
  orders_table (db w') = orders_table (db w).
Proof.
  run_handler. unfold query_user_first.
  destruct (find _ (users_table (db w))) as [r0|] eqn:Q; [|discriminate].
  destruct (store_writable (db w)); [|discriminate].
  intros [= <- <-]. cbn.
  rewrite (query_first_id _ _ _ Q).
  split; [reflexivity|]. split; [|split; [|split; reflexivity]].
  - intros r. unfold delete_rows. rewrite filter_In.
    rewrite negb_true_iff, Z.eqb_neq. tauto.
  - intros j Hj. rewrite (query_first_delete_other uid j _ Hj).
    now destruct (find (fun r => user_id r =? j) _).
Qed.

Lemma delete_user_removes_only_that_id_witness :
  exists m w',
    delete_user 1 shop_world = (Ok m, w') /\
    m = "User deleted successfully" /\
    fst (get_user 2 w') = Ok bob.
Proof.
  pose proof (delete_user_removes_only_that_id 1 shop_world _ _ eq_refl)
    as (Hm & _ & Hother & _).
  eexists. eexists. split; [cbv; reflexivity|].
  split; [exact Hm|].
  exact (eq_trans (Hother 2 ltac:(lia)) eq_refl).
Defined.

(** X4. Creating a user and then deleting it by the id it was given puts
    the users table back to what it was. *)
Theorem create_then_delete_restores_users d w u w1 m w2 :
  users_wf (db w) ->
  create_user d w = (Ok u, w1) ->
  delete_user (user_id u) w1 = (Ok m, w2) ->
  users_table (db w2) = users_table (db w).
Proof.
  intros Hwf. run_handler.
  destruct (store_writable (db w)) eqn:Hw; [|discriminate].
  intros [= <- <-]. cbn. unfold query_user_first. cbn.
  set (u := mkUser _ _ _ _).
  change (next_user_id (db w)) with (user_id u).
  rewrite query_first_fresh by exact Hwf.
  intros [= _ <-]. cbn.
  change (filter _ (users_table (db w) ++ [u]))
    with (delete_rows (user_id u) (users_table (db w) ++ [u])).
  rewrite delete_rows_app, delete_rows_fresh.
  - unfold delete_rows. cbn. rewrite Z.eqb_refl. cbn. apply app_nil_r.
  - eapply Forall_impl; [|exact Hwf]. cbn. intros; lia.
Qed.

Lemma create_then_delete_restores_users_witness :
  users_wf (db shop_world) /\
  exists u w1 m w2,
    create_user (mkUserCreate "carol" "c@d.org" "hash-c") shop_world
    = (Ok u, w1) /\
    delete_user (user_id u) w1 = (Ok m, w2) /\
    users_table (db w2) = [alice; bob].
Proof.
  split; [exact shop_store_wf|].
  pose proof (create_then_delete_restores_users
                (mkUserCreate "carol" "c@d.org" "hash-c") shop_world
                _ _ _ _ shop_store_wf eq_refl eq_refl) as H.
  do 4 eexists. split; [cbv; reflexivity|].
  split; [cbv; reflexivity | exact H].
Defined.

(** X5. Sending the same PUT a second time returns the same row and leaves
    the users table as the first one left it. *)
Theorem update_user_idempotent uid d w u w1 :
  update_user uid d w = (Ok u, w1) ->
  exists w2,
    update_user uid d w1 = (Ok u, w2) /\
    users_table (db w2) = users_table (db w1).
Proof.
  run_handler. unfold query_user_first.
  destruct (find _ (users_table (db w))) as [r|] eqn:Q; [|discriminate].
  destruct (store_writable (db w)) eqn:Hw; [|discriminate].
  intros [= <- <-]. cbn.
  pose proof (query_first_id _ _ _ Q) as Hr.
  assert (Hid : user_id (apply_user_data d r) = uid) by exact Hr.
  rewrite (query_first_updated uid _ _ r Hid Q).
  eexists. split; [reflexivity|]. cbn.
  now apply update_rows_same.
Qed.

Lemma update_user_idempotent_witness :
  exists u w1 w2,
    update_user 1 (mkUserCreate "alicia" "al@b.com" "hash-z") shop_world
    = (Ok u, w1) /\
    update_user 1 (mkUserCreate "alicia" "al@b.com" "hash-z") w1
    = (Ok u, w2) /\
    users_table (db w2) = users_table (db w1).
Proof.
  destruct (update_user_idempotent 1
              (mkUserCreate "alicia" "al@b.com" "hash-z") shop_world
              _ _ eq_refl) as (w2 & H2 & Hrows).
  eexists. eexists. exists w2.
  split; [cbv; reflexivity|]. split; [exact H2 | exact Hrows].
Defined.

(** X6. Under unique user ids a successful DELETE removes exactly one row. *)
Theorem delete_user_removes_one_row uid w m w' :
  NoDup (map user_id (users_table (db w))) ->
  delete_user uid w = (Ok m, w') ->
  (List.length (users_table (db w')) + 1
   = List.length (users_table (db w)))%nat.
Proof.
  intros Hnd. run_handler. unfold query_user_first.
  destruct (find _ (users_table (db w))) as [r|] eqn:Q; [|discriminate].
  destruct (store_writable (db w)); [|discriminate].
  intros [= _ <-]. cbn.
  pose proof (query_first_id _ _ _ Q) as Hr.
  apply find_some in Q. destruct Q as [Hin _].
  eapply delete_rows_length; eauto.
Qed.

Lemma delete_user_removes_one_row_witness :
  NoDup (map user_id (users_table (db shop_world))) /\
  exists m w',
    delete_user 1 shop_world = (Ok m, w') /\
    (List.length (users_table (db w')) + 1 = 2)%nat.
Proof.
  assert (Hnd : NoDup (map user_id (users_table (db shop_world)))).
  { cbn. repeat constructor; cbn; intuition discriminate. }
  split; [exact Hnd|].
  pose proof (delete_user_removes_one_row 1 shop_world _ _ Hnd eq_refl) as H.
  eexists. eexists. split; [cbv; reflexivity | exact H].
Defined.

(** X7. For non-negative [skip] and [limit] a page of GET /users/ is the
    stretch of the users table that starts at row [skip]: its i-th row is
    row [skip + i] of the table, and it has [limit] rows unless the table
    ends first. *)
Theorem get_users_page_rows skip limit w page :
  0 <= skip -> 0 <= limit ->
  get_users (Some skip) (Some limit) w = (Ok page, w) ->
  Z.of_nat (List.length page)
  = Z.min limit (Z.max 0 (Z.of_nat (List.length (users_table (db w))) - skip))
  /\
  forall i, (i < List.length page)%nat ->
            nth_error page i
            = nth_error (users_table (db w)) (Z.to_nat skip + i).
Proof.
  intros Hs Hl. run_handler. unfold sql_limit, sql_offset. cbn.
  destruct (Z.ltb_spec limit 0); [lia|].
  intros [= <-]. split.
  - rewrite length_firstn, length_skipn. lia.
  - intros i Hi. rewrite length_firstn in Hi.
    rewrite nth_error_firstn.
    destruct (Nat.ltb_spec i (Z.to_nat limit)); [|lia].
    now rewrite nth_error_skipn.
Qed.

Lemma get_users_page_rows_witness :
  0 <= 1 /\ 0 <= 5 /\
  get_users (Some 1) (Some 5) shop_world = (Ok [bob], shop_world) /\
  Z.of_nat (List.length [bob]) = 1.
Proof.
  split; [lia|]. split; [lia|]. split; [reflexivity|].
  pose proof (get_users_page_rows 1 5 shop_world [bob]
                ltac:(lia) ltac:(lia) eq_refl) as [Hlen _].
  exact Hlen.
Defined.

(** X8. Two pages that follow each other make up the larger page: the rows
    from [skip] of length [l1], then the rows from [skip + l1] of length
    [l2], are the rows from [skip] of length [l1 + l2]. *)
Theorem get_users_pages_concat skip l1 l2 w p1 p2 :
  0 <= skip -> 0 <= l1 -> 0 <= l2 ->
  get_users (Some skip) (Some l1) w = (Ok p1, w) ->
  get_users (Some (skip + l1)) (Some l2) w = (Ok p2, w) ->
  get_users (Some skip) (Some (l1 + l2)) w = (Ok (p1 ++ p2), w).
Proof.
  intros Hs H1 H2. run_handler. unfold sql_limit, sql_offset. cbn.
  destruct (Z.ltb_spec l1 0); [lia|].
  destruct (Z.ltb_spec l2 0); [lia|].
  destruct (Z.ltb_spec (l1 + l2) 0); [lia|].
  intros [= <-] [= <-]. do 2 f_equal.
  rewrite !Z2Nat.inj_add by lia.
  set (rows := users_table (db w)).
  rewrite (Nat.add_comm (Z.to_nat skip)), <- skipn_skipn.
  generalize (skipn (Z.to_nat skip) rows). intros l.
  rewrite <- (firstn_skipn (Z.to_nat l1) l) at 1.
  rewrite firstn_app, firstn_firstn.
  rewrite length_firstn.
  replace (Nat.min (Z.to_nat l1 + Z.to_nat l2) (Z.to_nat l1))
    with (Z.to_nat l1) by lia.
  f_equal.
  destruct (Nat.le_gt_cases (Z.to_nat l1) (List.length l)).
  - f_equal. lia.
  - rewrite !skipn_all2 by lia. now rewrite !firstn_nil.
Qed.

Lemma get_users_pages_concat_witness :
  0 <= 0 /\ 0 <= 1 /\ 0 <= 1 /\
  get_users (Some 0) (Some 1) shop_world = (Ok [alice], shop_world) /\
  get_users (Some (0 + 1)) (Some 1) shop_world = (Ok [bob], shop_world) /\
  get_users (Some 0) (Some (1 + 1)) shop_world
  = (Ok ([alice] ++ [bob]), shop_world).
Proof.
  repeat (split; [lia|]).
  split; [reflexivity|]. split; [reflexivity|].
  apply (get_users_pages_concat 0 1 1 shop_world [alice] [bob]);
    try lia; reflexivity.
Defined.

(** ** What every reachable world satisfies *)

Lemma NoDup_map_filter {A B} (f : A -> B) (p : A -> bool) l :
  NoDup (map f l) -> NoDup (map f (filter p l)).
Proof.
  induction l as [|x l IH]; cbn; [auto|].
  intros Hnd. inversion Hnd as [|? ? Hx Hnd']; subst.
  destruct (p x); cbn; [|auto].
  constructor; [|auto].
  intros Hin. apply Hx. apply in_map_iff in Hin.
  destruct Hin as [y [Hy Hin]]. apply filter_In in Hin.
  rewrite <- Hy. apply in_map. tauto.
Qed.

Lemma NoDup_map_snoc {A} (f : A -> Z) l x :
  NoDup (map f l) -> Forall (fun y => f y < f x) l ->
  NoDup (map f (l ++ [x])).
Proof.
  intros Hnd Hlt. rewrite map_app. cbn.
  apply NoDup_app; [exact Hnd | repeat constructor; auto |].
  intros y Hy [<-|[]]. apply in_map_iff in Hy.
  destruct Hy as [z [Hz Hin]]. rewrite Forall_forall in Hlt.
  apply Hlt in Hin. lia.
Qed.

Lemma start_inv ps b :
  service_inv ps (mkWorld (mkStore [] 1 ps [] 1 b) [] [] []).
Proof. split; cbn; try reflexivity; constructor. Qed.

Lemma set_writable_inv ps b w :
  service_inv ps w -> service_inv ps (set_writable b w).
Proof. intros []. split; assumption. Qed.

Lemma serve_keeps_inv ps c w :
  service_inv ps w -> service_inv ps (snd (serve c w)).
Proof.
  intros Hinv.
  destruct Hinv as [Huwf Hund Howf Hond Hps Hev Htk].
  destruct c as [skip limit|d|uid|uid d|uid|req];
    unfold serve, fmap; run_handler.
  - now split.
  - destruct (store_writable (db w)); [|now split].
    split; cbn; auto.
    + apply Forall_app. split.
      * eapply Forall_impl; [|exact Huwf]. cbn. intros; lia.
      * repeat constructor. cbn. lia.
    + now apply NoDup_map_snoc.
  - destruct (query_user_first uid (db w)); now split.
  - destruct (query_user_first uid (db w)) as [r|] eqn:Q; [|now split].
    destruct (store_writable (db w)); [|now split].
    unfold query_user_first in Q.
    pose proof (query_first_id _ _ _ Q) as Hr.
    split; cbn; auto.
    + unfold users_wf in *. cbn. unfold update_rows. apply Forall_map.
      apply find_some in Q. destruct Q as [Hin _].
      rewrite Forall_forall in *. intros x Hx.
      destruct (user_id x =? uid); cbn; [now apply (Huwf r) | now apply Huwf].
    + rewrite update_rows_ids; [exact Hund | exact Hr].
  - destruct (query_user_first uid (db w)) as [r|] eqn:Q; [|now split].
    destruct (store_writable (db w)); [|now split].
    split; cbn; auto.
    + unfold users_wf in *. cbn. unfold delete_rows.
      rewrite Forall_forall in *. intros x Hx. apply filter_In in Hx.
      now apply Huwf.
    + unfold delete_rows. now apply NoDup_map_filter.
  - destruct (store_writable (db w)); [|now split].
    split; cbn; auto.
    + unfold orders_wf in *. cbn. apply Forall_app. split.
      * eapply Forall_impl; [|exact Howf]. cbn. intros; lia.
      * repeat constructor. cbn. lia.
    + now apply NoDup_map_snoc.
    + rewrite map_app, Hev. reflexivity.
    + rewrite flat_map_app, Htk, <- app_assoc. reflexivity.
Qed.

Lemma reachable_inv ps w : reachable ps w -> service_inv ps w.
Proof.
  induction 1 as [b|w c _ IH|w b _ IH].
  - apply start_inv.
  - now apply serve_keeps_inv.
  - now apply set_writable_inv.
Qed.

Lemma signup_world_reachable : reachable [mkProduct 10 500] signup_world.
Proof. apply reach_serve, reach_start. Defined.


(** X9. In every world the service gets to, user ids are pairwise distinct
    and below the counter, and every stored user row is what GET returns
    for its id. *)
Theorem reachable_users_fetchable ps w :
  reachable ps w ->
  users_wf (db w) /\
  NoDup (map user_id (users_table (db w))) /\
  forall u, In u (users_table (db w)) -> get_user (user_id u) w = (Ok u, w).
Proof.
  intros Hr. apply reachable_inv in Hr. destruct Hr as [Huwf Hund _ _ _ _ _].
  repeat split; auto.
  intros u Hin. run_handler. unfold query_user_first.
  now rewrite query_first_present.
Qed.

Lemma reachable_users_fetchable_witness :
  reachable [mkProduct 10 500] signup_world /\
  get_user 1 signup_world
  = (Ok (mkUser 1 "carol" "c@d.org" "hash-c"), signup_world).
Proof.
  split; [exact signup_world_reachable|].
  pose proof (reachable_users_fetchable _ _ signup_world_reachable)
    as (_ & _ & Hget).
  apply (Hget (mkUser 1 "carol" "c@d.org" "hash-c")).
  cbn. now left.
Defined.



(** ** Order workflow: the row and the total *)

Lemma fold_left_add_acc xs a :
  fold_left Z.add xs a = a + fold_left Z.add xs 0.
Proof.
  revert a. induction xs as [|x xs IH]; intros a; cbn; [lia|].
  rewrite (IH (a + x)), (IH x). lia.
Qed.

Lemma py_sum_cons x xs : py_sum (x :: xs) = x + py_sum xs.
Proof. unfold py_sum. cbn. apply fold_left_add_acc. Qed.

Lemma py_sum_perm xs ys : Permutation xs ys -> py_sum xs = py_sum ys.
Proof.
  induction 1 as [|x xs ys _ IH|x y xs|xs ys zs _ IH1 _ IH2].
  - reflexivity.
  - rewrite !py_sum_cons. lia.
  - rewrite !py_sum_cons. lia.
  - congruence.
Qed.

Lemma price_of_present ps p :
  NoDup (map product_id ps) -> In p ps ->
  price_of (product_id p) ps = Some (price p).
Proof.
  unfold price_of.
  induction ps as [|x ps IH]; cbn; [contradiction|].
  intros Hnd Hin. inversion Hnd as [|? ? Hx Hnd']; subst.
  destruct Hin as [->|Hin].
  - now rewrite Z.eqb_refl.
  - destruct (Z.eqb_spec (product_id x) (product_id p)) as [E|E];
      [|now apply IH].
    exfalso. apply Hx. rewrite E. now apply in_map.
Qed.

Lemma shop_order_placed :
  post_orders shop_request shop_world = (Ok shop_order, shop_world_ordered).
Proof. reflexivity. Qed.

(** X11. The order row a successful POST stores carries the request's user
    id and product list as sent and takes its id from the orders counter;
    no user row and no product row changes, so every user id fetches what
    it fetched before. *)
Theorem create_order_stores_request req w o w' :
  post_orders req w = (Ok o, w') ->
  order_id o = next_order_id (db w) /\
  order_user_id o = oc_user_id req /\
  order_products o = oc_products req /\
  users_table (db w') = users_table (db w) /\
  products_table (db w') = products_table (db w) /\
  forall uid, fst (get_user uid w') = fst (get_user uid w).
Proof.
  rewrite post_orders_run.
  destruct (store_writable (db w)); [|discriminate].
  intros [= <- <-]. repeat split.
  intros uid. run_handler. unfold query_user_first. cbn.
  now destruct (find _ _).
Qed.

Lemma create_order_stores_request_witness :
  post_orders shop_request shop_world = (Ok shop_order, shop_world_ordered) /\
  order_id shop_order = 1 /\
  order_user_id shop_order = 2 /\
  order_products shop_order = [10; 11].
Proof.
  split; [exact shop_order_placed|].
  pose proof (create_order_stores_request
                shop_request shop_world shop_order shop_world_ordered
                shop_order_placed) as (Hid & Huid & Hps & _).
  split; [exact Hid|]. split; [exact Huid | exact Hps].
Defined.

(** X12. Handed exactly the products an order lists, one row per listed id
    and no id listed twice, [calculate_total_price] returns the sum of the
    listed products' prices. *)
Theorem calculate_total_price_of_listed_rows req ps :
  map product_id ps = oc_products req ->
  NoDup (oc_products req) ->
  calculate_total_price req ps = listed_total (oc_products req) ps.
Proof.
  intros Hids Hnd. unfold calculate_total_price, listed_total.
  rewrite <- Hids in *. rewrite map_map. f_equal.
  apply map_ext_in. intros p Hin.
  now rewrite (price_of_present ps p Hnd Hin).
Qed.

Lemma calculate_total_price_of_listed_rows_witness :
  calculate_total_price (mkOrderCreate 1 [10; 11] "a@b.com")
                        [mkProduct 10 500; mkProduct 11 750]
  = 1250.
Proof.
  rewrite (calculate_total_price_of_listed_rows
             (mkOrderCreate 1 [10; 11] "a@b.com")
             [mkProduct 10 500; mkProduct 11 750]).
  - reflexivity.
  - reflexivity.
  - cbn. repeat constructor; cbn; intuition discriminate.
Defined.

(** X13. The total [calculate_total_price] returns depends neither on the
    request nor on the order of the product rows it is handed, and the
    total over two lists put together is the sum of their totals. *)
Theorem calculate_total_price_row_order req req' ps ps' qs :
  Permutation ps ps' ->
  calculate_total_price req ps = calculate_total_price req' ps' /\
  calculate_total_price req (ps ++ qs)
  = calculate_total_price req ps + calculate_total_price req qs.
Proof.
  intros Hp. unfold calculate_total_price. split.
  - apply py_sum_perm. now apply Permutation_map.
  - rewrite map_app. unfold py_sum. rewrite fold_left_app.
    apply fold_left_add_acc.
Qed.

Lemma calculate_total_price_row_order_witness :
  Permutation [mkProduct 10 500; mkProduct 11 750]
              [mkProduct 11 750; mkProduct 10 500] /\
  calculate_total_price (mkOrderCreate 1 [10] "a@b.com")
                        [mkProduct 10 500; mkProduct 11 750]
  = calculate_total_price (mkOrderCreate 2 [] "x@y.com")
                          [mkProduct 11 750; mkProduct 10 500].
Proof.
  assert (Hp : Permutation [mkProduct 10 500; mkProduct 11 750]
                           [mkProduct 11 750; mkProduct 10 500])
    by apply perm_swap.
  split; [exact Hp|].
  apply (calculate_total_price_row_order
           (mkOrderCreate 1 [10] "a@b.com") (mkOrderCreate 2 [] "x@y.com")
           _ _ [] Hp).
Defined.

(** ** Facts about strings *)

Lemma string_app_assoc (a b c : string) :
  ((a ++ b) ++ c = a ++ (b ++ c))%string.
Proof. induction a as [|x a IH]; cbn; [reflexivity | now rewrite IH]. Qed.

Lemma string_app_nil_r (a : string) : (a ++ "" = a)%string.
Proof. induction a as [|x a IH]; cbn; [reflexivity | now rewrite IH]. Qed.

Lemma string_app_inv_head (p a b : string) :
  (p ++ a = p ++ b)%string -> a = b.
Proof. induction p as [|x p IH]; cbn; [auto | intros [= H]; auto]. Qed.

Lemma list_of_string_app (a b : string) :
  list_ascii_of_string (a ++ b)
  = list_ascii_of_string a ++ list_ascii_of_string b.
Proof. induction a as [|x a IH]; cbn; [reflexivity | now rewrite IH]. Qed.

Lemma list_of_string_inj (a b : string) :
  list_ascii_of_string a = list_ascii_of_string b -> a = b.
Proof.
  intros H. rewrite <- (string_of_list_ascii_of_string a),
              <- (string_of_list_ascii_of_string b).
  now rewrite H.
Qed.

Lemma string_app_inv_tail (a b c : string) :
  (a ++ c = b ++ c)%string -> a = b.
Proof.
  intros H. apply list_of_string_inj.
  apply (f_equal list_ascii_of_string) in H.
  rewrite !list_of_string_app in H. now apply app_inv_tail in H.
Qed.

Lemma string_forallb_app p (a b : string) :
  string_forallb p (a ++ b) = string_forallb p a && string_forallb p b.
Proof.
  induction a as [|x a IH]; cbn; [reflexivity|].
  now rewrite IH, andb_assoc.
Qed.

Lemma string_forallb_impl (p q : ascii -> bool) s :
  (forall c, p c = true -> q c = true) ->
  string_forallb p s = true -> string_forallb q s = true.
Proof.
  intros Hpq. induction s as [|x s IH]; cbn; [auto|].
  rewrite !andb_true_iff. intros [Hx Hs]. auto.
Qed.

Lemma string_forallb_Forall p s :
  string_forallb p s = true ->
  Forall (fun c => p c = true) (list_ascii_of_string s).
Proof.
  induction s as [|x s IH]; cbn; [constructor|].
  rewrite andb_true_iff. intros [Hx Hs]. constructor; auto.
Qed.

(** ** Facts about [py_str] *)

Lemma uint_string_digits d :
  string_forallb sign_or_digit (NilEmpty.string_of_uint d) = true.
Proof. induction d; cbn; auto. Qed.

Lemma py_str_digits n : string_forallb sign_or_digit (py_str n) = true.
Proof.
  assert (H : forall d, string_forallb sign_or_digit
                         (NilZero.string_of_uint d) = true).
  { intros d. destruct d; try apply uint_string_digits. reflexivity. }
  unfold py_str. destruct (Z.to_int n) as [d|d].
  - apply H.
  - change (sign_or_digit "-" &&
            string_forallb sign_or_digit (NilZero.string_of_uint d) = true).
    now rewrite H.
Qed.

Lemma py_str_parses n :
  NilZero.int_of_string (py_str n) = Some (Z.to_int n).
Proof.
  unfold py_str. apply NilZero.isi.
  - destruct n as [|p|p]; cbn; try discriminate.
    intros [= H]. now apply (Unsigned.to_uint_nonnil p).
  - destruct n as [|p|p]; cbn; try discriminate.
    intros [= H]. now apply (Unsigned.to_uint_nonnil p).
Qed.

Lemma py_str_inj a b : py_str a = py_str b -> a = b.
Proof.
  intros H. pose proof (py_str_parses a) as Ha.
  rewrite H, py_str_parses in Ha. injection Ha as Ha.
  rewrite <- (DecimalZ.of_to a), <- (DecimalZ.of_to b). now rewrite Ha.
Qed.

Lemma sign_or_digit_printable c : sign_or_digit c = true -> printable c = true.
Proof.
  unfold sign_or_digit, printable.
  rewrite orb_true_iff, !andb_true_iff, !Nat.leb_le, Nat.eqb_eq. lia.
Qed.

Lemma py_str_printable n : all_printable (py_str n) = true.
Proof.
  eapply string_forallb_impl; [apply sign_or_digit_printable|].
  apply py_str_digits.
Qed.

(** ** The serializer writes plain ASCII *)

Lemma Json_nested_ind (P : Json -> Prop) :
  (forall n, P (JInt n)) ->
  (forall s, P (JStr s)) ->
  (forall fields, Forall (fun kv => P (snd kv)) fields -> P (JObj fields)) ->
  forall v, P v.
Proof.
  intros HI HS HO. fix IH 1. intros [n|s|fields].
  - apply HI.
  - apply HS.
  - apply HO. induction fields as [|[k x] rest IHr]; constructor.
    + apply IH.
    + exact IHr.
Qed.

Lemma json_dumps_obj fields :
  json_dumps (JObj fields) = ("{" ++ json_items fields ++ "}")%string.
Proof. reflexivity. Qed.

Lemma json_items_cons k x rest :
  json_items ((k, x) :: rest)
  = (encode_basestring_ascii k ++ ": " ++ json_dumps x
     ++ match rest with
        | [] => EmptyString
        | _ :: _ => ", " ++ json_items rest
        end)%string.
Proof. destruct rest; reflexivity. Qed.

Lemma escape_char_printable c : all_printable (escape_char c) = true.
Proof. destruct c as [[] [] [] [] [] [] [] []]; reflexivity. Qed.

Lemma all_printable_app (a b : string) :
  all_printable (a ++ b) = all_printable a && all_printable b.
Proof. apply string_forallb_app. Qed.

Lemma escape_string_printable s : all_printable (escape_string s) = true.
Proof.
  induction s as [|c s IH]; [reflexivity|].
  cbn [escape_string].
  now rewrite all_printable_app, IH, escape_char_printable.
Qed.

Lemma encode_basestring_printable s :
  all_printable (encode_basestring_ascii s) = true.
Proof.
  unfold encode_basestring_ascii.
  change (String dquote (escape_string s ++ String dquote ""))%string
    with (String dquote "" ++ (escape_string s ++ String dquote ""))%string.
  now rewrite !all_printable_app, escape_string_printable.
Qed.

Lemma json_items_printable fields :
  Forall (fun kv => all_printable (json_dumps (snd kv)) = true) fields ->
  all_printable (json_items fields) = true.
Proof.
  induction 1 as [|[k x] rest Hx _ IHr]; [reflexivity|].
  cbn [snd] in Hx.
  rewrite json_items_cons, !all_printable_app.
  rewrite encode_basestring_printable, Hx.
  destruct rest as [|kv rest]; [reflexivity|].
  now rewrite all_printable_app, IHr.
Qed.

Lemma json_dumps_printable v : all_printable (json_dumps v) = true.
Proof.
  induction v as [n|s|fields IH] using Json_nested_ind.
  - apply py_str_printable.
  - apply encode_basestring_printable.
  - rewrite json_dumps_obj, !all_printable_app.
    now rewrite (json_items_printable fields IH).
Qed.

Lemma utf8_encode_printable s : all_printable s = true -> utf8_encode s = s.
Proof.
  unfold all_printable. induction s as [|c s IH]; cbn; [reflexivity|].
  rewrite andb_true_iff. intros [Hc Hs]. rewrite (IH Hs).
  unfold utf8_encode_char. unfold printable in Hc.
  rewrite andb_true_iff, !Nat.leb_le in Hc.
  destruct (Nat.ltb_spec (nat_of_ascii c) 128); [reflexivity | lia].
Qed.

(** X14. Whatever value the producer is given, the bytes its serializer
    writes are the characters of the JSON text, one byte each, and every
    one of them lies between space and tilde. *)
Theorem value_serializer_ascii v :
  value_serializer v = json_dumps v /\
  all_printable (value_serializer v) = true.
Proof.
  unfold value_serializer.
  rewrite (utf8_encode_printable _ (json_dumps_printable v)).
  split; [reflexivity | apply json_dumps_printable].
Qed.

Lemma json_dumps_log_data n :
  json_dumps (log_data n)
  = ("{" ++ quoted "event" ++ ": " ++ quoted "order_created" ++ ", "
     ++ quoted "order_id" ++ ": " ++ py_str n ++ "}")%string.
Proof.
  unfold log_data. rewrite json_dumps_obj, !json_items_cons.
  cbn [json_dumps].
  change (encode_basestring_ascii "event") with (quoted "event").
  change (encode_basestring_ascii "order_created")
    with (quoted "order_created").
  change (encode_basestring_ascii "order_id") with (quoted "order_id").
  rewrite string_app_nil_r, !string_app_assoc. reflexivity.
Qed.

Lemma value_serializer_log_data n :
  value_serializer (log_data n) = json_dumps (log_data n).
Proof.
  unfold value_serializer.
  apply utf8_encode_printable, json_dumps_printable.
Qed.

(** X15. The one record a successful order creation hands the producer is
    serialized as the text of an object with the members event, set to
    order_created, and order_id, set to the decimal id of the stored
    order. *)
Theorem create_order_event_wire_text req w o w' :
  post_orders req w = (Ok o, w') ->
  exists r,
    producer_sent w' = producer_sent w ++ [r] /\
    rec_topic r = "logs" /\
    value_serializer (rec_value r)
    = ("{" ++ quoted "event" ++ ": " ++ quoted "order_created" ++ ", "
       ++ quoted "order_id" ++ ": " ++ py_str (order_id o) ++ "}")%string.
Proof.
  rewrite post_orders_run.
  destruct (store_writable (db w)); [|discriminate].
  intros [= <- <-]. eexists. split; [reflexivity|]. split; [reflexivity|].
  exact (eq_trans
           (value_serializer_log_data (order_id (new_order req (db w))))
           (json_dumps_log_data (order_id (new_order req (db w))))).
Qed.

Lemma create_order_event_wire_text_witness :
  post_orders shop_request shop_world = (Ok shop_order, shop_world_ordered) /\
  exists r,
    producer_sent shop_world_ordered = producer_sent shop_world ++ [r] /\
    rec_topic r = "logs" /\
    value_serializer (rec_value r)
    = ("{" ++ quoted "event" ++ ": " ++ quoted "order_created" ++ ", "
       ++ quoted "order_id" ++ ": " ++ py_str (order_id shop_order)
       ++ "}")%string.
Proof.
  split; [exact shop_order_placed|].
  exact (create_order_event_wire_text
           shop_request shop_world shop_order shop_world_ordered
           shop_order_placed).
Defined.

(** X16. Two order_created events are serialized to the same bytes only
    when they carry the same order id. *)
Theorem order_event_wire_inj n m :
  value_serializer (log_data n) = value_serializer (log_data m) -> n = m.
Proof.
  rewrite !value_serializer_log_data, !json_dumps_log_data.
  intros H. rewrite <- !string_app_assoc in H.
  apply string_app_inv_tail in H.
  rewrite !string_app_assoc in H.
  repeat apply string_app_inv_head in H.
  now apply py_str_inj.
Qed.

Lemma order_event_wire_inj_witness :
  value_serializer (log_data (2 + 3)) = value_serializer (log_data 5) /\
  2 + 3 = 5.
Proof.
  split; [reflexivity|].
  apply (order_event_wire_inj (2 + 3) 5). reflexivity.
Defined.

(** ** What the background tasks print *)

Lemma split_at_separator (sep : ascii) a b x y :
  Forall (fun c => c <> sep) a -> Forall (fun c => c <> sep) b ->
  a ++ sep :: x = b ++ sep :: y -> a = b /\ x = y.
Proof.
  intros Ha. revert b. induction Ha as [|c a Hc _ IH]; intros b Hb; cbn.
  - destruct Hb as [|d b Hd _]; cbn.
    + now intros [= ->].
    + intros [= E _]. now destruct Hd.
  - destruct Hb as [|d b Hd Hb]; cbn.
    + intros [= E _]. now destruct Hc.
    + intros [= -> E]. destruct (IH b Hb E) as [-> ->]. auto.
Qed.

Lemma py_str_no_space n :
  Forall (fun c => c <> " "%char) (list_ascii_of_string (py_str n)).
Proof.
  pose proof (string_forallb_Forall _ _ (py_str_digits n)) as H.
  eapply Forall_impl; [|exact H]. cbn. intros c Hc ->. discriminate Hc.
Qed.

Lemma send_email_line sender email oid :
  send_email sender email "Order Confirmation"
    ("Your order with ID " ++ py_str oid ++ " has been confirmed.")%string
  = ("Sending email to " ++ email
     ++ " with subject 'Order Confirmation' and message 'Your order with ID "
     ++ py_str oid ++ " has been confirmed.'")%string.
Proof.
  unfold send_email. cbn. do 2 f_equal.
  repeat (rewrite string_app_assoc; cbn). reflexivity.
Qed.

Lemma confirmation_line_inj e1 n1 e2 n2 :
  ("Sending email to " ++ e1
   ++ " with subject 'Order Confirmation' and message 'Your order with ID "
   ++ py_str n1 ++ " has been confirmed.'")%string
  = ("Sending email to " ++ e2
     ++ " with subject 'Order Confirmation' and message 'Your order with ID "
     ++ py_str n2 ++ " has been confirmed.'")%string ->
  e1 = e2 /\ n1 = n2.
Proof.
  intros H. apply string_app_inv_head in H.
  rewrite <- !string_app_assoc in H. apply string_app_inv_tail in H.
  apply (f_equal list_ascii_of_string) in H.
  rewrite !list_of_string_app in H.
  apply (f_equal (@List.rev ascii)) in H. rewrite !rev_app_distr in H.
  cbn [list_ascii_of_string List.rev app] in H.
  rewrite <- !app_assoc in H. cbn [app] in H.
  apply split_at_separator in H.
  - destruct H as [Hn He]. split.
    + repeat apply app_inv_head in He.
      apply (f_equal (@List.rev ascii)) in He. rewrite !rev_involutive in He.
      now apply list_of_string_inj.
    + apply (f_equal (@List.rev ascii)) in Hn. rewrite !rev_involutive in Hn.
      apply list_of_string_inj in Hn. now apply py_str_inj.
  - apply Forall_rev, py_str_no_space.
  - apply Forall_rev, py_str_no_space.
Qed.

(** X17. For a successfully created order the two scheduled tasks print,
    when they run, one line each: the confirmation addressed to the email
    of the request and naming the id of the stored order, and the payment
    note naming the same id. *)
Theorem create_order_task_lines req w o w' :
  post_orders req w = (Ok o, w') ->
  exists t1 t2,
    background_tasks w' = background_tasks w ++ [t1; t2] /\
    run_task t1
    = [("Sending email to " ++ oc_email req
        ++ " with subject 'Order Confirmation' and message 'Your order with ID "
        ++ py_str (order_id o) ++ " has been confirmed.'")%string] /\
    run_task t2
    = [("Payment processed for order " ++ py_str (order_id o))%string].
Proof.
  rewrite post_orders_run.
  destruct (store_writable (db w)); [|discriminate].
  intros [= <- <-]. do 2 eexists. split; [reflexivity|].
  split; [|reflexivity].
  cbn [run_task]. f_equal. apply send_email_line.
Qed.

Lemma create_order_task_lines_witness :
  post_orders shop_request shop_world = (Ok shop_order, shop_world_ordered) /\
  exists t1 t2,
    background_tasks shop_world_ordered
    = background_tasks shop_world ++ [t1; t2] /\
    run_task t1
    = [("Sending email to " ++ oc_email shop_request
        ++ " with subject 'Order Confirmation' and message 'Your order with ID "
        ++ py_str (order_id shop_order) ++ " has been confirmed.'")%string] /\
    run_task t2
    = [("Payment processed for order " ++ py_str (order_id shop_order))%string].
Proof.
  split; [exact shop_order_placed|].
  exact (create_order_task_lines
           shop_request shop_world shop_order shop_world_ordered
           shop_order_placed).
Defined.

(** X18. Two background tasks that print the same lines are the same
    task: the lines tell the payment from the confirmation and give back
    the order id and the address. *)
Theorem run_task_inj t1 t2 :
  run_task t1 = run_task t2 -> t1 = t2.
Proof.
  destruct t1 as [n1 e1 []|n1], t2 as [n2 e2 []|n2]; cbn [run_task].
  - rewrite !send_email_line. intros H.
    apply (f_equal (fun l => hd EmptyString l)) in H. cbn [hd] in H.
    apply confirmation_line_inj in H. destruct H as [-> ->]. reflexivity.
  - unfold send_email. cbn. intros [= H].
  - unfold send_email. cbn. intros [= H].
  - intros [= H]. apply py_str_inj in H. now subst.
Qed.

Lemma run_task_inj_witness :
  run_task (process_payment (2 + 3)) = run_task (process_payment 5) /\
  process_payment (2 + 3) = process_payment 5.
Proof.
  split; [reflexivity|].
  apply (run_task_inj (process_payment (2 + 3)) (process_payment 5)).
  reflexivity.
Defined.
